(* ===== verification/_CoqProject ===== *)
-Q . S2P
Prelude.v
Http.v
Service.v
Component.v
Routes.v
Url.v
Metadata.v
Refinement.v
App.v
View.v
