(* ===== verification/Prelude.v ===== *)
(** * A verification development of plantDiseaseIA_angular

    The program is an Angular single-page client made of three parts
    under [src/app/]:

    - [service/plant-disease.service.ts], class [PlantDiseaseService]:
      [predictDisease(file)] wraps the file in a [FormData] under the
      field ["file"] and returns [http.post(apiUrl, formData,
      {responseType: 'text'})], a cold observable that issues one POST
      per subscription and emits the response text or an error;
    - [features/predict-disease/predict-disease.component.ts], class
      [PredictDiseaseComponent]: two fields [selectedFile] and
      [prediction], the handler [onFileSelected(event)] storing
      [event.target.files[0]], and [onUpload()] which, when a file is
      selected, subscribes to [predictDisease(selectedFile)] with a
      [next] callback that stores the response and an [error] callback
      that logs to the console and stores a fixed French message;
    - [app.routes.ts], the route table [routes]: ['predict'] renders the
      component and [''] redirects (pathMatch 'full') to ['/predict'].

    The component receives the service by constructor injection and the
    service receives Angular's [HttpClient] the same way; the router
    instantiates the component.  The only concurrency is the browser's
    event loop: an upload returns at once and its callback runs later,
    when the response arrives, against whatever state the component then
    has.

    ** Files (in dependency order)

    - [Prelude] (this file): the [ng_scope] notation [l.[i]] for
      JavaScript indexing, nullable values ([JsNull], [JsUndefined],
      [JsVal]) and their truthiness, keyed lists ([find_key],
      [remove_key]: the pending subscriptions) with their lemmas, and the
      hint databases [ng] (resolve) and [ng_rw] (rewrite).
    - [Http]: the browser and Angular types the service only calls,
      modelled at the contract the code relies on: [File], [FormData]
      ([FormData_append]/[FormData_get]), [HttpRequest], the transport's
      answer [HttpResult], [HttpErrorResponse], the single-shot
      [Observable] of [HttpClient.post] and its text decoding
      [text_result] (success iff the status is 2xx).  Not repository code.
    - [Service]: Module [PlantDiseaseService] ([apiUrl],
      [predictDisease]) in a Section over the injected [HttpClient] class;
      the laws [HttpClientSpec] that Angular's client satisfies
      ([angularHttpClient_spec]); the interface [PredictService] through
      which the component sees the service, and its instance
      [plantDiseaseService]; the tactic [service_simpl].
    - [Component]: Module [PredictDiseaseComponent]: the Record
      [Component] (fields [selectedFile], [prediction]), [init],
      [onFileSelected], [onUpload], the callbacks [on_response] and
      [on_failure] ([upload_observer]); rxjs's [subscribe] and the
      transport's [deliver]; the event loop [World] (page = component +
      console, pending subscriptions, request log, next number),
      [dispatch] of one browser event, [run] of a list of them, the
      relation [step] and [reachable].  The component's theorems are
      proved in Sections over [PredictService], the ones that need the
      service's observable over [HttpClientSpec].
    - [Routes]: [routes] and a model of Angular's recognition
      ([match_route], [first_match], [recognize] with fuel).
    - [Url]: Angular's URL parser on plain paths ([parse_url]).
    - [Metadata]: the decorators' metadata ([predict_disease_meta] of
      [@Component], [plant_disease_injectable] of [@Injectable]), as
      data: they configure Angular and carry no behaviour.
    - [Refinement]: Module [SpecMachine], the state machine of section
      4.2 of the specification as a labelled transition system
      ([AState], [ALabel], [astep], [atrace]), the label of a browser
      event ([event_label]) and the abstraction [abs].
    - [App]: the browser tab: [AppState] (active URL, active route
      configuration, the outlet's component and its [World]),
      [app_dispatch] of a navigation (parse, recognise, keep the
      instance when the activated route configuration is the active
      one, as Angular's default reuse strategy does, else create a
      fresh one) or of a browser event on the page, [app_run],
      [app_step], [app_reachable]; and the end-to-end scenarios of
      section 8 of the specification.
    - [View]: Module [Template], the component's template modelled from
      section 6 of the specification ([render]: file picker, upload
      button, the prediction; [template_event]: the [(change)] and
      [(click)] bindings), and [app_view], what the tab displays.

    ** What is proved

    - the service: [Service.predictDisease_contract], the request built
      (method, URL, the single field ["file"], text response) and its
      decoding;
    - each handler, branch by branch, errors included:
      [onUpload_sends_request], [onUpload_no_file]; [deliver_success]
      (2xx body shown verbatim) and [deliver_failure] (fixed text and
      one console entry, whatever the cause); [select_then_upload_first]
      and [empty_selection_disables_upload];
    - whole runs, by induction on the events: [run_last_display] (the
      displayed text is that of the last response to arrive, whatever
      upload it answers), [run_console_log] (one console entry per
      failed response, in order), [run_request_bounds] (every request is
      pending or answered once, no more requests than clicks) and
      [uploads_unbounded] (nothing else bounds the requests in flight);
    - an invariant by induction on [step] ([reachable_ind]):
      [reachable_sent_prediction] (only prediction POSTs are ever sent);
    - refinement: [SpecMachine.run_refines], every run is a trace of the
      specification's machine under the labels of its events;
    - routes: [root_and_predict_same_view], [other_urls_rejected],
      [recognize_fuel_2];
    - router and component together: [App.app_step_keeps_instance] and
      [App.tab_is_component_run] (with this table, navigation never
      replaces the instance: the shown world is the component's own run
      on the tab's browser events);
    - the page: [View.shown_text_from_server], a text on the page is the
      fixed error text or the verbatim body of a 2xx response received;
    - end to end: [App.session_success], [App.session_server_error].

    ** Bounds and fuel

    Recognition is given fuel, one unit per round (a round either
    activates a component, fails, or follows one redirect).  The table has
    one redirect whose target is a component route, so two rounds decide
    every URL ([recognize_fuel_2]); [App.app_navigate] uses 2.  The event
    loop needs no fuel: [run] is structural in the event list.  HTTP
    statuses are integers ([Z]); only the 2xx test reads them.

    ** Not modelled

    The CSS; the template beyond what section 6 of the specification
    says of it (its file is not under [src/]: [View] follows the
    specification); Angular's change detection (the page is rendered
    from the current state); the bytes of the request on the wire (the
    request is the record [HttpRequest]); the server; the application
    bootstrap ([main.ts], [app.config.ts], not under [src/]); page
    reloads, which end the instance together with its pending calls.
    Console output is a log list.  Angular's [HttpClient], router and
    URL parser are modelled only at the contract the code relies on (for
    the parser: paths without query, fragment, matrix parameters or
    outlets).  The import lines and closing braces of the sources have
    nothing to model.  The root injector's single instance of the
    service is not modelled: the service holds only a constant, so
    sharing it is not observable.  The code of the three sources is
    otherwise modelled in full. *)

From stdpp Require Import base list strings relations.

Declare Scope ng_scope.
Delimit Scope ng_scope with ng.
Open Scope ng_scope.

(** ** JavaScript values that may be null or undefined

    A field typed [File | null] in TypeScript may still hold [undefined]
    at run time (reading past the end of an array), so the three cases
    are kept apart. *)
Inductive Nullable (A : Type) : Type :=
| JsNull
| JsUndefined
| JsVal (a : A).
Arguments JsNull {A}.
Arguments JsUndefined {A}.
Arguments JsVal {A} a.

(** JavaScript truthiness of a nullable object reference: objects are
    truthy, [null] and [undefined] are falsy. *)
Definition truthy {A} (v : Nullable A) : bool :=
  match v with
  | JsVal _ => true
  | _ => false
  end.

Definition nullable_to_option {A} (v : Nullable A) : option A :=
  match v with
  | JsVal a => Some a
  | _ => None
  end.

(** [arr[i]] on a JavaScript array-like: [undefined] out of range. *)
Definition js_index {A} (l : list A) (i : nat) : Nullable A :=
  match l !! i with
  | Some a => JsVal a
  | None => JsUndefined
  end.

Notation "l .[ i ]" := (js_index l i) (at level 1, format "l .[ i ]") : ng_scope.

#[export] Instance Nullable_eq_dec {A} `{EqDecision A} : EqDecision (Nullable A).
Proof. solve_decision. Defined.

(** ** Keyed lists

    Pending work is kept as a list of records carrying a numeric key, in
    creation order; these are the operations and lemmas the event loop
    needs. *)
Section Keyed.
Context {A : Type} (key : A -> nat).

Definition find_key (k : nat) (l : list A) : option A :=
  List.find (fun a => Nat.eqb (key a) k) l.

Definition remove_key (k : nat) (l : list A) : list A :=
  List.filter (fun a => negb (Nat.eqb (key a) k)) l.

Lemma find_key_Some k l a :
  find_key k l = Some a -> a ∈ l /\ key a = k.
Proof.
  unfold find_key. intros H.
  destruct (List.find_some _ _ H) as [Hin Hk].
  split; [by apply list_elem_of_In | by apply Nat.eqb_eq].
Qed.

Lemma find_key_elem k l a : find_key k l = Some a -> k ∈ map key l.
Proof.
  intros [Hin <-]%find_key_Some. rewrite list_elem_of_In. apply in_map.
  by apply list_elem_of_In.
Qed.

Lemma find_key_None k l :
  find_key k l = None -> k ∉ map key l.
Proof.
  unfold find_key. intros H Hin.
  apply list_elem_of_In, in_map_iff in Hin as [a [Hk Hin]].
  pose proof (List.find_none _ _ H a Hin) as Hf. simpl in Hf.
  rewrite Hk, Nat.eqb_refl in Hf. discriminate.
Qed.

Lemma find_key_in k l :
  k ∈ map key l -> exists a, find_key k l = Some a.
Proof.
  destruct (find_key k l) eqn:E; [eauto|].
  by intros []%(find_key_None k l).
Qed.

Lemma remove_key_keys k l :
  map key (remove_key k l) = List.filter (fun j => negb (Nat.eqb j k)) (map key l).
Proof.
  induction l as [|a l IH]; simpl; [done|].
  destruct (Nat.eqb (key a) k); simpl; by rewrite IH.
Qed.


Lemma remove_key_sub k l a : a ∈ remove_key k l -> a ∈ l.
Proof.
  unfold remove_key. rewrite !list_elem_of_In, filter_In. tauto.
Qed.

Lemma remove_key_notin k l : k ∉ map key l -> remove_key k l = l.
Proof.
  induction l as [|a l IH]; simpl; intros Hk; [done|].
  rewrite not_elem_of_cons in Hk. destruct Hk as [Hne Hk].
  destruct (Nat.eqb_spec (key a) k) as [E|E]; [congruence|].
  simpl. by rewrite IH.
Qed.



Lemma remove_key_length_NoDup k l :
  NoDup (map key l) -> k ∈ map key l -> length (remove_key k l) = length l - 1.
Proof.
  induction l as [|a l IH]; simpl; intros Hnd Hin; [by apply not_elem_of_nil in Hin|].
  apply NoDup_cons in Hnd as [Ha Hnd]. unfold remove_key; simpl.
  destruct (Nat.eqb_spec (key a) k) as [<-|E]; simpl.
  - fold (remove_key (key a) l). rewrite remove_key_notin by done. lia.
  - apply elem_of_cons in Hin as [->|Hin]; [done|].
    fold (remove_key k l). rewrite IH by done.
    destruct l; [by apply not_elem_of_nil in Hin | simpl; lia].
Qed.
End Keyed.

(** ** Lists filtered and numbered *)

Lemma filter_sublist {A} (f : A -> bool) (l : list A) : sublist (List.filter f l) l.
Proof.
  induction l as [|a l IH]; simpl; [constructor|].
  destruct (f a); by constructor.
Qed.

(** ** Automation *)
Lemma fold_left_app_omap {A B} (f : A -> option B) (l : list A) (acc : list B) :
  fold_left (fun acc a => acc ++ option_list (f a)) l acc = acc ++ omap f l.
Proof.
  revert acc. induction l as [|a l IH]; intros acc; simpl; [by rewrite app_nil_r|].
  rewrite IH, <- app_assoc. f_equal. by destruct (f a).
Qed.

Create HintDb ng discriminated.
Create Rewrite HintDb ng_rw.
#[export] Hint Resolve filter_sublist remove_key_sub : ng.
