(* ===== verification/Http.v ===== *)
(** * The browser and Angular HTTP layer the service calls

    Nothing here is code of the repository: [File], [FormData] and
    [HttpClient] are platform and library types that
    [plant-disease.service.ts] only calls.  They are modelled at the
    contract the code relies on: a file is a name, a MIME type and its
    bytes; a [FormData] is the ordered list of its entries; [post] with
    [responseType: 'text'] returns a cold observable that sends one
    request per subscription and, when the transport answers, emits the
    body of a 2xx response or an [HttpErrorResponse] for any other
    status and for a network failure. *)

From stdpp Require Import base list strings.
From Stdlib Require Import ZArith.
From S2P Require Import Prelude.

Local Open Scope Z_scope.

(** ** Files and form data *)

Record File := mkFile {
  file_name : string;
  file_type : string;
  file_bytes : list Byte.byte
}.

#[export] Instance byte_eq_dec : EqDecision Byte.byte := Byte.byte_eq_dec.
#[export] Instance File_eq_dec : EqDecision File.
Proof. solve_decision. Defined.

Inductive FormDataValue :=
| FDFile (f : File)
| FDString (s : string).

#[export] Instance FormDataValue_eq_dec : EqDecision FormDataValue.
Proof. solve_decision. Defined.

(** [new FormData()] is empty; [append] adds an entry at the end without
    replacing an entry of the same name; [get] returns the first one. *)
Definition FormData := list (string * FormDataValue).

Definition FormData_new : FormData := [].

Definition FormData_append (fd : FormData) (name : string) (v : FormDataValue) : FormData :=
  fd ++ [(name, v)].

Fixpoint FormData_get (fd : FormData) (name : string) : option FormDataValue :=
  match fd with
  | [] => None
  | (n, v) :: rest => if String.eqb n name then Some v else FormData_get rest name
  end.

(** ** Requests, responses and errors *)

Inductive HttpMethod := GET | POST.
Inductive ResponseType := RTjson | RTtext | RTblob | RTarraybuffer.

#[export] Instance HttpMethod_eq_dec : EqDecision HttpMethod.
Proof. solve_decision. Defined.
#[export] Instance ResponseType_eq_dec : EqDecision ResponseType.
Proof. solve_decision. Defined.

Record HttpRequest := mkRequest {
  req_method : HttpMethod;
  req_url : string;
  req_body : FormData;
  req_responseType : ResponseType
}.

#[export] Instance HttpRequest_eq_dec : EqDecision HttpRequest.
Proof. solve_decision. Defined.

(** What the transport delivers for one request: a response with a
    status and a text body, or a network failure (no response). *)
Inductive HttpResult :=
| Received (status : Z) (body : string)
| NetworkError.

(** [HttpErrorResponse]: status 0 for a failure without response. *)
Record HttpErrorResponse := mkHttpError {
  err_status : Z;
  err_body : option string
}.

#[export] Instance HttpErrorResponse_eq_dec : EqDecision HttpErrorResponse.
Proof. solve_decision. Defined.

Definition is_2xx (status : Z) : bool := (200 <=? status) && (status <? 300).

(** ** Observables

    The observable [HttpClient.post] returns is cold and single-shot: a
    subscription sends [obs_request] and later delivers exactly one
    notification, computed by [obs_result] from what the transport
    answered. *)
Record Observable (A : Type) := mkObservable {
  obs_request : HttpRequest;
  obs_result : HttpResult -> A + HttpErrorResponse
}.
Arguments mkObservable {A}.
Arguments obs_request {A}.
Arguments obs_result {A}.

(** The text decoding of [responseType: 'text']. *)
Definition text_result (r : HttpResult) : string + HttpErrorResponse :=
  match r with
  | Received status body =>
      if is_2xx status then inl body else inr (mkHttpError status (Some body))
  | NetworkError => inr (mkHttpError 0 None)
  end.

Definition HttpClient_post_text (url : string) (body : FormData) : Observable string :=
  mkObservable (mkRequest POST url body RTtext) text_result.

(** ** Lemmas of the layer *)

Lemma FormData_get_append_new fd name v :
  FormData_get fd name = None ->
  FormData_get (FormData_append fd name v) name = Some v.
Proof.
  unfold FormData_append. induction fd as [|[n w] fd IH]; simpl; intros H.
  - by rewrite String.eqb_refl.
  - destruct (String.eqb n name); [discriminate|]. by apply IH.
Qed.

Lemma is_2xx_spec status : is_2xx status = true <-> 200 <= status < 300.
Proof. unfold is_2xx. rewrite andb_true_iff, Z.leb_le, Z.ltb_lt. done. Qed.

Lemma text_result_inl r body :
  text_result r = inl body <-> exists status, r = Received status body /\ 200 <= status < 300.
Proof.
  unfold text_result. split.
  - destruct r as [status b|]; [|discriminate].
    destruct (is_2xx status) eqn:E; intros H; [|discriminate].
    injection H as <-. exists status. split; [done|]. by apply is_2xx_spec.
  - intros (status & -> & Hs). by rewrite (proj2 (is_2xx_spec status) Hs).
Qed.

#[export] Hint Resolve FormData_get_append_new : ng.
