(* ===== verification/Service.v ===== *)
(** * [PlantDiseaseService] ([src/app/service/plant-disease.service.ts])

    The service is injected with an [HttpClient]; here that dependency is
    the class [HttpClient] with the laws [HttpClientSpec] that Angular's
    [post(url, body, {responseType: 'text'})] satisfies, and the service's
    theorems are proved against the laws.  The component sees the service
    through the class [PredictService]. *)

From stdpp Require Import base list strings.
From Stdlib Require Import ZArith.
From S2P Require Import Prelude Http.

(** ** The injected HTTP client *)

Class HttpClient := {
  http_post_text : string -> FormData -> Observable string
}.

Class HttpClientSpec `{HttpClient} := {
  post_text_request url body :
    obs_request (http_post_text url body) = mkRequest POST url body RTtext;
  post_text_result url body :
    obs_result (http_post_text url body) = text_result
}.

#[export] Instance angularHttpClient : HttpClient := {|
  http_post_text := HttpClient_post_text
|}.

#[export] Instance angularHttpClient_spec : HttpClientSpec.
Proof. split; reflexivity. Qed.

(** ** The service interface the component is written against *)

Class PredictService := {
  predictDisease : File -> Observable string
}.

Module PlantDiseaseService.
Section WithHttp.
Context `{HttpClient}.

(** [private apiUrl = 'http://localhost:8080/api/predict';] *)
Definition apiUrl : string := "http://localhost:8080/api/predict".

(** [predictDisease(file)]: a fresh [FormData], one [append] of the
    file under ['file'], then [http.post] with a text response. *)
Definition predictDisease (file : File) : Observable string :=
  let formData := FormData_new in
  let formData := FormData_append formData "file" (FDFile file) in
  http_post_text apiUrl formData.
End WithHttp.
End PlantDiseaseService.

#[export] Instance plantDiseaseService `{HttpClient} : PredictService := {|
  Service.predictDisease := PlantDiseaseService.predictDisease
|}.

(** The single request every prediction sends. *)
Definition prediction_request (f : File) : HttpRequest :=
  mkRequest POST PlantDiseaseService.apiUrl [("file", FDFile f)] RTtext.

Section ServiceFacts.
Context `{HttpClientSpec}.

Lemma predictDisease_request_eq f :
  obs_request (PlantDiseaseService.predictDisease f) = prediction_request f.
Proof. unfold PlantDiseaseService.predictDisease. by rewrite post_text_request. Qed.

Lemma predictDisease_result_eq f :
  obs_result (PlantDiseaseService.predictDisease f) = text_result.
Proof. unfold PlantDiseaseService.predictDisease. by rewrite post_text_result. Qed.

(** C1: [predictDisease(file)] describes one POST to
    ['http://localhost:8080/api/predict'] whose form has exactly one
    entry, named ['file'] and holding the file (so [get('file')] gives
    the file back), with a text response; a subscriber receives a text
    exactly when the answer is a response with a 2xx status, and then
    receives its body. *)
Theorem predictDisease_contract f :
  let o := PlantDiseaseService.predictDisease f in
  req_method (obs_request o) = POST /\
  req_url (obs_request o) = "http://localhost:8080/api/predict" /\
  req_body (obs_request o) = [("file", FDFile f)] /\
  FormData_get (req_body (obs_request o)) "file" = Some (FDFile f) /\
  req_responseType (obs_request o) = RTtext /\
  (forall r body, obs_result o r = inl body <->
     exists status, r = Received status body /\ (200 <= status < 300)%Z).
Proof.
  simpl. rewrite predictDisease_request_eq, predictDisease_result_eq.
  split_and!; try done. apply text_result_inl.
Qed.
End ServiceFacts.

Lemma predictDisease_contract_witness :
  req_body (obs_request (PlantDiseaseService.predictDisease
    (mkFile "leaf.jpg" "image/jpeg" [Byte.xff; Byte.xd8]))) =
    [("file", FDFile (mkFile "leaf.jpg" "image/jpeg" [Byte.xff; Byte.xd8]))].
Proof.
  destruct (predictDisease_contract (H0 := angularHttpClient_spec)
              (mkFile "leaf.jpg" "image/jpeg" [Byte.xff; Byte.xd8])) as (_ & _ & Hb & _).
  exact Hb.
Defined.

#[export] Hint Rewrite @predictDisease_request_eq @predictDisease_result_eq : ng_rw.

(** Expose the application's service behind the [PredictService] class
    and rewrite its observable to the request and decoding it has. *)
Ltac service_simpl := cbn [predictDisease plantDiseaseService]; autorewrite with ng_rw.
