(* ===== verification/Component.v ===== *)
(** * [PredictDiseaseComponent] and the event loop around it
    ([src/app/features/predict-disease/predict-disease.component.ts])

    The component's two fields are the Record [Component].  The closures
    that [onUpload] passes to [subscribe] capture [this] and run later, so
    the state they act on is the state of the page when the response
    arrives, not when the upload was clicked.  The page (component and
    console) is therefore one shared value, and the [World] adds what the
    browser keeps: the pending subscriptions, in subscription order, and
    the log of requests sent, numbered by subscription.

    - [onFileSelected], [onUpload], [upload_observer] are the handler and
      the two callbacks; [subscribe] and [deliver] are what rxjs does when
      [subscribe] is called and when the transport answers;
    - [dispatch] runs one browser event, [run] a list of them, [step] is
      the same transition as an inductive relation and [reachable] its
      closure from [init_world];
    - the theorems give each handler's behaviour on each branch, the
      invariants of reachable worlds, the last-response-wins law of the
      displayed text, and the
      bounds relating requests sent to upload clicks and responses
      ([count_events], [run_request_bounds]) and their absence for
      requests in flight ([uploads_unbounded]); the console log of
      failures ([run_console_log]). *)

From stdpp Require Import base list strings relations.
From Stdlib Require Import ZArith.
From S2P Require Import Prelude Http Service.

(** ** Data *)

(** The change event of the file input: [event.target.files]. *)
Record ChangeEvent := mkChangeEvent { target_files : list File }.

(** [selectedFile: File | null = null; prediction: string | null = null;] *)
Record Component := mkComponent {
  selectedFile : Nullable File;
  prediction : option string
}.

Inductive ConsoleEntry :=
| ConsoleError (label : string) (err : HttpErrorResponse).

(** What the callbacks of [onUpload] can reach: the component and the
    console. *)
Record Page := mkPage {
  comp : Component;
  console : list ConsoleEntry
}.

(** The two callbacks handed to [subscribe]. *)
Record Observer := mkObserver {
  on_next : string -> Page -> Page;
  on_error : HttpErrorResponse -> Page -> Page
}.

Record Subscription := mkSubscription {
  sub_id : nat;
  sub_obs : Observable string;
  sub_observer : Observer
}.

Record World := mkWorld {
  page : Page;
  subs : list Subscription;
  sent : list (nat * HttpRequest);
  fresh : nat
}.

Inductive Event :=
| EvFileChange (ev : ChangeEvent)
| EvUploadClick
| EvHttpResponse (id : nat) (r : HttpResult).

Module PredictDiseaseComponent.

(** The constructor's field initialisers. *)
Definition init : Component := mkComponent JsNull None.

Definition init_world : World := mkWorld (mkPage init []) [] [] 0.

(** [onFileSelected(event) { this.selectedFile = event.target.files[0]; }] *)
Definition onFileSelected (event : ChangeEvent) (c : Component) : Component :=
  mkComponent (target_files event).[0] (prediction c).

Definition error_message : string := "Erreur lors de la prédiction".
Definition console_label : string := "Erreur lors de la prédiction :".

(** [(response) => { this.prediction = response; }] *)
Definition on_response (response : string) (p : Page) : Page :=
  mkPage (mkComponent (selectedFile (comp p)) (Some response)) (console p).

(** [(error) => { console.error('Erreur lors de la prédiction :', error);
                  this.prediction = 'Erreur lors de la prédiction'; }] *)
Definition on_failure (error : HttpErrorResponse) (p : Page) : Page :=
  let p := mkPage (comp p) (console p ++ [ConsoleError console_label error]) in
  mkPage (mkComponent (selectedFile (comp p)) (Some error_message)) (console p).

Definition upload_observer : Observer := mkObserver on_response on_failure.

(** [obs.subscribe(next, error)] on a cold HTTP observable: the request
    goes out now, the callbacks wait under a fresh subscription number. *)
Definition subscribe (o : Observable string) (ob : Observer) (w : World) : World :=
  mkWorld (page w)
          (subs w ++ [mkSubscription (fresh w) o ob])
          (sent w ++ [(fresh w, obs_request o)])
          (S (fresh w)).

(** The single notification of a subscription, for the transport's
    answer [r]. *)
Definition notify (o : Observable string) (ob : Observer) (r : HttpResult) (p : Page) : Page :=
  match obs_result o r with
  | inl v => on_next ob v p
  | inr e => on_error ob e p
  end.

(** The transport answers request [id]: its subscription is notified and
    closed.  There is nothing to answer when [id] is not pending. *)
Definition deliver (id : nat) (r : HttpResult) (w : World) : option World :=
  match find_key sub_id id (subs w) with
  | None => None
  | Some s =>
      Some (mkWorld (notify (sub_obs s) (sub_observer s) r (page w))
                    (remove_key sub_id id (subs w))
                    (sent w)
                    (fresh w))
  end.

Definition set_comp (c : Component) (w : World) : World :=
  mkWorld (mkPage c (console (page w))) (subs w) (sent w) (fresh w).

Section Handlers.
Context `{PredictService}.

(** [onUpload() { if (this.selectedFile) { this.plantDiseaseService
      .predictDisease(this.selectedFile).subscribe(next, error); } }] *)
Definition onUpload (w : World) : World :=
  match selectedFile (comp (page w)) with
  | JsVal f => subscribe (predictDisease f) upload_observer w
  | JsNull | JsUndefined => w
  end.

Definition dispatch (e : Event) (w : World) : option World :=
  match e with
  | EvFileChange ev => Some (set_comp (onFileSelected ev (comp (page w))) w)
  | EvUploadClick => Some (onUpload w)
  | EvHttpResponse id r => deliver id r w
  end.

Fixpoint run (es : list Event) (w : World) : option World :=
  match es with
  | [] => Some w
  | e :: es' => dispatch e w ≫= run es'
  end.

Inductive step : World -> World -> Prop :=
| step_file_change ev w :
    step w (set_comp (onFileSelected ev (comp (page w))) w)
| step_upload w :
    step w (onUpload w)
| step_response id r w w' :
    deliver id r w = Some w' -> step w w'.

Definition reachable (w : World) : Prop := rtc step init_world w.

(** A subscription made by [onUpload]: the component's callbacks on the
    service's observable for some file. *)
Definition upload_sub (s : Subscription) : Prop :=
  sub_observer s = upload_observer /\ exists f, sub_obs s = predictDisease f.

(** Every request sent is a prediction request of the service. *)
Definition service_requests (w : World) : Prop :=
  forall i req, (i, req) ∈ sent w -> exists f, req = obs_request (predictDisease f).
End Handlers.

(** ** Auxiliary definitions for the statements *)

(** Well-formedness of the browser side: requests are numbered
    [0 .. fresh-1] in order, the pending subscriptions are a subsequence
    of them (hence sorted and without duplicates), and each pending
    subscription's request is in the log. *)
Definition wf_world (w : World) : Prop :=
  map fst (sent w) = seq 0 (fresh w) /\
  sublist (map sub_id (subs w)) (seq 0 (fresh w)) /\
  (forall s, s ∈ subs w -> (sub_id s, obs_request (sub_obs s)) ∈ sent w).

(** The text shown for the transport's answer [r] to a prediction
    request. *)
Definition display (r : HttpResult) : string :=
  match text_result r with
  | inl body => body
  | inr _ => error_message
  end.

(** The displayed prediction predicted from the events alone: the answer
    to the last response event, whatever request it belongs to. *)
Definition last_display (start : option string) (es : list Event) : option string :=
  fold_left (fun acc e => match e with
                          | EvHttpResponse _ r => Some (display r)
                          | _ => acc
                          end) es start.

(** The console entry a response event leaves: one for a failed
    request, none otherwise. *)
Definition failure_entry (e : Event) : option ConsoleEntry :=
  match e with
  | EvHttpResponse _ r =>
      match text_result r with
      | inl _ => None
      | inr err => Some (ConsoleError console_label err)
      end
  | EvFileChange _ | EvUploadClick => None
  end.


(** Counting the events of a run. *)
Definition is_upload_click (e : Event) : bool :=
  match e with EvUploadClick => true | _ => false end.

Definition is_response (e : Event) : bool :=
  match e with EvHttpResponse _ _ => true | _ => false end.

Definition count_events (p : Event -> bool) (es : list Event) : nat :=
  length (List.filter p es).

(** ** Concrete runs *)

Definition leaf_a : File := mkFile "leaf_a.jpg" "image/jpeg" [Byte.xff; Byte.xd8; Byte.x01].
Definition leaf_b : File := mkFile "leaf_b.jpg" "image/jpeg" [Byte.xff; Byte.xd8; Byte.x02].

(** Upload [leaf_a], then select and upload [leaf_b]; the server answers
    the second request first, then the first. *)
Definition overlapping_uploads : list Event :=
  [EvFileChange (mkChangeEvent [leaf_a]); EvUploadClick;
   EvFileChange (mkChangeEvent [leaf_b]); EvUploadClick;
   EvHttpResponse 1 (Received 200 "Tomato___healthy");
   EvHttpResponse 0 (Received 200 "Tomato___Late_blight")].

(** The world the browser reaches by running [es] from the initial page
    with the application's service ([init_world] if a response event
    names no pending request). *)
Definition world_after (es : list Event) : World :=
  default init_world (run (H := plantDiseaseService) es init_world).

Definition one_upload : list Event :=
  [EvFileChange (mkChangeEvent [leaf_a]); EvUploadClick].


Lemma deliver_Some id r w w' :
  deliver id r w = Some w' ->
  exists s, find_key sub_id id (subs w) = Some s /\
    w' = mkWorld (notify (sub_obs s) (sub_observer s) r (page w))
                 (remove_key sub_id id (subs w)) (sent w) (fresh w).
Proof. unfold deliver. destruct (find_key _ _ _); intros; simplify_eq; eauto. Qed.

Lemma deliver_Some_pending id r w w' :
  deliver id r w = Some w' -> id ∈ map sub_id (subs w).
Proof. intros (s & Hs & _)%deliver_Some. by eapply find_key_elem. Qed.


(** A file selection never touches the displayed prediction. *)
Lemma onFileSelected_prediction ev c : prediction (onFileSelected ev c) = prediction c.
Proof. unfold onFileSelected. by destruct (target_files ev). Qed.


Section HandlerFacts.
Context `{PredictService}.

(** An upload click either changes nothing or subscribes the
    component's callbacks to the service's observable for the selected
    file. *)
Lemma onUpload_cases w :
  onUpload w = w \/
  exists f, selectedFile (comp (page w)) = JsVal f /\
            onUpload w = subscribe (predictDisease f) upload_observer w.
Proof. unfold onUpload. destruct (selectedFile (comp (page w))); eauto. Qed.

(** C5: [onUpload] with no file selected ([null] initially, [undefined]
    after a selection of no file) changes nothing: no subscription, no
    request, the displayed prediction and the console untouched. *)
Theorem onUpload_no_file w :
  truthy (selectedFile (comp (page w))) = false -> onUpload w = w.
Proof. unfold onUpload. by destruct (selectedFile _). Qed.

Lemma dispatch_step e w w' : dispatch e w = Some w' -> step w w'.
Proof.
  destruct e; simpl; intros Hd; simplify_eq;
    [apply step_file_change | apply step_upload | eapply step_response; eauto].
Qed.


Lemma run_rtc es w w' : run es w = Some w' -> rtc step w w'.
Proof.
  revert w. induction es as [|e es IH]; simpl; intros w Hr; [by simplify_eq|].
  destruct (dispatch e w) as [w1|] eqn:Hd; simpl in Hr; [|discriminate].
  eapply rtc_l; [by eapply dispatch_step | by apply IH].
Qed.

Lemma reachable_ind (P : World -> Prop) :
  P init_world -> (forall w w', step w w' -> P w -> P w') ->
  forall w, reachable w -> P w.
Proof.
  intros Hinit Hstep. apply rtc_ind_r; eauto.
Qed.

Lemma run_reachable es w : run es init_world = Some w -> reachable w.
Proof. apply run_rtc. Qed.
End HandlerFacts.

(** Case on an upload click: nothing happens, or one subscription. *)
Ltac upload_cases w := destruct (onUpload_cases w) as [-> | (?f & ?Hf & ->)].

(** ** Invariants of the event loop *)

Lemma wf_init : wf_world init_world.
Proof. split_and!; simpl; [done | constructor | set_solver]. Qed.

Lemma wf_set_comp c w : wf_world w -> wf_world (set_comp c w).
Proof. done. Qed.

Lemma wf_subscribe o ob w : wf_world w -> wf_world (subscribe o ob w).
Proof.
  intros (Hsent & Hsub & Hin). unfold wf_world, subscribe; cbn [fresh subs sent].
  rewrite !map_app, Hsent, seq_S. cbn [map fst sub_id]. split_and!.
  - done.
  - apply sublist_app; [done | constructor; constructor].
  - intros s. rewrite elem_of_app, list_elem_of_singleton.
    intros [Hs | ->]; apply elem_of_app; [left; by apply Hin | right; by left].
Qed.

Lemma wf_deliver id r w w' : wf_world w -> deliver id r w = Some w' -> wf_world w'.
Proof.
  intros (Hsent & Hsub & Hin) (s & _ & ->)%deliver_Some.
  unfold wf_world; simpl. split_and!; [done | | eauto with ng].
  rewrite remove_key_keys. etrans; [apply filter_sublist | done].
Qed.

#[local] Hint Resolve wf_set_comp wf_subscribe wf_deliver : ng.

Section InvariantFacts.
Context `{PredictService}.

Lemma step_wf w w' : step w w' -> wf_world w -> wf_world w'.
Proof.
  destruct 1 as [ev w|w|id r w w' Hd]; intros Hwf; eauto with ng.
  upload_cases w; eauto with ng.
Qed.


Lemma wf_NoDup w : wf_world w -> NoDup (map sub_id (subs w)).
Proof. intros (_ & Hsub & _). eapply sublist_NoDup; [apply NoDup_seq | done]. Qed.

Lemma step_upload_subs w w' :
  step w w' -> Forall upload_sub (subs w) -> Forall upload_sub (subs w').
Proof.
  destruct 1 as [ev w|w|id r w w' Hd]; intros Hall; [done| |].
  - upload_cases w; [done|].
    simpl. apply Forall_app; split; [done|]. repeat constructor. eauto.
  - apply deliver_Some in Hd as (s & _ & ->). simpl.
    apply Forall_forall. intros x Hx. rewrite Forall_forall in Hall.
    eauto with ng.
Qed.

Lemma reachable_upload_subs w : reachable w -> Forall upload_sub (subs w).
Proof. apply (reachable_ind (fun w => Forall upload_sub (subs w))); [constructor | apply step_upload_subs]. Qed.

Lemma step_service_requests w w' :
  step w w' -> service_requests w -> service_requests w'.
Proof.
  destruct 1 as [ev w|w|id r w w' Hd]; intros Hreq; [done| |].
  - upload_cases w; [done|].
    intros i req. simpl. rewrite elem_of_app, list_elem_of_singleton.
    intros [Hin | [= _ ->]]; eauto.
  - apply deliver_Some in Hd as (s & _ & ->). done.
Qed.

Lemma reachable_NoDup w : reachable w -> NoDup (map sub_id (subs w)).
Proof.
  intros Hw. apply wf_NoDup. revert w Hw.
  apply reachable_ind; [apply wf_init | apply step_wf].
Qed.

Lemma reachable_service_requests w : reachable w -> service_requests w.
Proof.
  apply reachable_ind; [|apply step_service_requests].
  intros i req Hin. by apply not_elem_of_nil in Hin.
Qed.
End InvariantFacts.

(** ** Responses *)


(** ** Bounds on requests *)

Lemma count_events_cons p e es :
  count_events p (e :: es) = (if p e then 1 else 0) + count_events p es.
Proof. unfold count_events. simpl. by destruct (p e). Qed.

Section Bounds.
Context `{PredictService}.

Lemma dispatch_counts e w w' :
  NoDup (map sub_id (subs w)) -> dispatch e w = Some w' ->
  length (sent w') <= length (sent w) + (if is_upload_click e then 1 else 0) /\
  length (subs w') + (if is_response e then 1 else 0) + length (sent w) =
    length (subs w) + length (sent w').
Proof.
  intros Hnd Hd. pose proof (dispatch_step e w w' Hd) as Hs.
  destruct e as [ev| |id r]; simpl in *.
  - injection Hd as <-. simpl. lia.
  - injection Hd as <-. upload_cases w; [lia|]. simpl. rewrite !length_app. simpl. lia.
  - pose proof (deliver_Some_pending id r w w' Hd) as Hin.
    apply deliver_Some in Hd as (s & _ & ->). simpl.
    rewrite remove_key_length_NoDup by done.
    destruct (subs w); [by apply not_elem_of_nil in Hin | simpl; lia].
Qed.

Lemma run_counts es w w' :
  reachable w -> run es w = Some w' ->
  length (sent w') <= length (sent w) + count_events is_upload_click es /\
  length (subs w') + count_events is_response es + length (sent w) =
    length (subs w) + length (sent w').
Proof.
  revert w. induction es as [|e es IH]; simpl; intros w Hw Hr.
  - injection Hr as <-. unfold count_events. simpl. lia.
  - destruct (dispatch e w) as [w1|] eqn:Hd; simpl in Hr; [|discriminate].
    pose proof (dispatch_counts e w w1 (reachable_NoDup w Hw) Hd) as [Hs1 Hp1].
    destruct (IH w1) as [Hs2 Hp2]; [by eapply rtc_r, dispatch_step | done |].
    rewrite !count_events_cons. split; lia.
Qed.

(** C16: every request sent is either still pending or has been answered
    exactly once: after any run from the initial page, the pending
    subscriptions plus the response events make up the requests sent;
    and no more requests are sent than there were upload clicks. *)
Theorem run_request_bounds es w :
  run es init_world = Some w ->
  length (subs w) + count_events is_response es = length (sent w) /\
  length (sent w) <= count_events is_upload_click es.
Proof.
  intros Hr. destruct (run_counts es init_world w) as [Hs Hp]; [apply rtc_refl | done |].
  simpl in *. lia.
Qed.
End Bounds.

Section ServiceFacts.
Context `{HttpClientSpec}.

Lemma notify_upload s r p :
  upload_sub s ->
  notify (sub_obs s) (sub_observer s) r p =
    match text_result r with
    | inl body => on_response body p
    | inr e => on_failure e p
    end.
Proof.
  intros [Hob [f Hf]]. unfold notify. rewrite Hob, Hf. by service_simpl.
Qed.

Lemma deliver_upload id r w :
  Forall upload_sub (subs w) -> id ∈ map sub_id (subs w) ->
  exists s, deliver id r w =
    Some (mkWorld (match text_result r with
                   | inl body => on_response body (page w)
                   | inr e => on_failure e (page w)
                   end) (remove_key sub_id id (subs w)) (sent w) (fresh w))
    /\ s ∈ subs w.
Proof.
  intros Hall Hin. destruct (find_key_in sub_id id (subs w) Hin) as [s Hs].
  pose proof (find_key_Some _ _ _ _ Hs) as [Hsin _].
  exists s. unfold deliver. rewrite Hs, notify_upload; [done|].
  by eapply Forall_forall in Hall.
Qed.

(** C2: clicking upload with a file selected sends exactly one request,
    the POST of a form whose only field ["file"] holds that file to
    [apiUrl] with a text response, registers one subscription under the
    next number, and changes nothing visible on the page. *)
Theorem onUpload_sends_request w f :
  selectedFile (comp (page w)) = JsVal f ->
  sent (onUpload w) = sent w ++ [(fresh w, prediction_request f)] /\
  map sub_id (subs (onUpload w)) = map sub_id (subs w) ++ [fresh w] /\
  page (onUpload w) = page w /\ fresh (onUpload w) = S (fresh w).
Proof.
  intros Hf. unfold onUpload. rewrite Hf. unfold subscribe; simpl.
  rewrite map_app. by service_simpl.
Qed.

(** C3: when the answer to a pending upload is a 2xx response, the
    displayed prediction becomes its body verbatim; the selected file
    and the console are untouched and the subscription is closed. *)
Theorem deliver_success w id status body :
  reachable w -> id ∈ map sub_id (subs w) -> (200 <= status < 300)%Z ->
  exists w', deliver id (Received status body) w = Some w' /\
    page w' = mkPage (mkComponent (selectedFile (comp (page w))) (Some body))
                     (console (page w)) /\
    subs w' = remove_key sub_id id (subs w) /\ sent w' = sent w.
Proof.
  intros Hw Hin Hs.
  destruct (deliver_upload id (Received status body) w) as [s [-> _]];
    [by apply reachable_upload_subs | done |].
  assert (text_result (Received status body) = inl body) as -> by (apply text_result_inl; eauto).
  eexists; split_and!; done.
Qed.

(** C4: when the answer to a pending upload is a network failure or a
    response with a status outside 2xx, whatever its body, the displayed
    prediction becomes the fixed text [error_message] and exactly one
    entry, labelled [console_label], is appended to the console. *)
Theorem deliver_failure w id r :
  reachable w -> id ∈ map sub_id (subs w) ->
  (r = NetworkError \/ exists status body, r = Received status body /\ ~ (200 <= status < 300)%Z) ->
  exists w' e, deliver id r w = Some w' /\
    page w' = mkPage (mkComponent (selectedFile (comp (page w))) (Some error_message))
                     (console (page w) ++ [ConsoleError console_label e]) /\
    subs w' = remove_key sub_id id (subs w) /\ sent w' = sent w.
Proof.
  intros Hw Hin Hr.
  destruct (deliver_upload id r w) as [s [-> _]]; [by apply reachable_upload_subs | done |].
  destruct (text_result r) as [body|e] eqn:Et.
  - apply text_result_inl in Et as (status & -> & Hs).
    destruct Hr as [|(st & b & [= <- <-] & Hn)]; [discriminate | lia].
  - eexists _, e. split_and!; done.
Qed.

(** C8: every request a reachable world has ever sent is the
    prediction POST of the service for some file: the component sends
    nothing else. *)
Theorem reachable_sent_prediction w i req :
  reachable w -> (i, req) ∈ sent w -> exists f, req = prediction_request f.
Proof.
  intros Hw Hin. destruct (reachable_service_requests w Hw i req Hin) as [f ->].
  exists f. by service_simpl.
Qed.

(** The page after a response to an upload: the success or the error
    callback, by the text decoding of the answer. *)
Lemma deliver_page id r w w' :
  Forall upload_sub (subs w) -> deliver id r w = Some w' ->
  page w' = match text_result r with
            | inl body => on_response body (page w)
            | inr e => on_failure e (page w)
            end.
Proof.
  intros Hall Hd. destruct (deliver_upload id r w Hall) as [s [Hd' _]];
    [by eapply deliver_Some_pending|].
  rewrite Hd in Hd'. by injection Hd' as ->.
Qed.

Lemma dispatch_prediction e w w' :
  Forall upload_sub (subs w) -> dispatch e w = Some w' ->
  prediction (comp (page w')) =
    match e with
    | EvHttpResponse _ r => Some (display r)
    | _ => prediction (comp (page w))
    end.
Proof.
  intros Hall. destruct e as [ev| |id r]; simpl.
  - intros [= <-]. apply onFileSelected_prediction.
  - intros [= <-]. unfold onUpload. by destruct (selectedFile _).
  - intros Hd. rewrite (deliver_page id r w w' Hall Hd). unfold display.
    by destruct (text_result r).
Qed.

Lemma dispatch_console e w w' :
  Forall upload_sub (subs w) -> dispatch e w = Some w' ->
  console (page w') = console (page w) ++ option_list (failure_entry e).
Proof.
  intros Hall. destruct e as [ev| |id r]; simpl; rewrite ?app_nil_r.
  - by intros [= <-].
  - intros [= <-]. unfold onUpload. by destruct (selectedFile _).
  - intros Hd. rewrite (deliver_page id r w w' Hall Hd).
    by destruct (text_result r); simpl; rewrite ?app_nil_r.
Qed.

(** An observation of the world that each event updates by [f] is, after
    a run, the fold of [f] over the events. *)
Lemma run_fold {B} (obs : World -> B) (f : B -> Event -> B) es w w' :
  (forall e w w', Forall upload_sub (subs w) -> dispatch e w = Some w' -> obs w' = f (obs w) e) ->
  Forall upload_sub (subs w) -> run es w = Some w' -> obs w' = fold_left f es (obs w).
Proof.
  intros Hf. revert w. induction es as [|e es IH]; simpl; intros w Hall Hr; [by simplify_eq|].
  destruct (dispatch e w) as [w1|] eqn:Hd; simpl in Hr; [|discriminate].
  rewrite <- (Hf e w w1 Hall Hd). apply (IH w1); [|done].
  eapply step_upload_subs; [by eapply dispatch_step | done].
Qed.

(** C6: after any sequence of events that the browser can run from the
    page's initial state, the displayed prediction is the text of the
    last response to arrive ([last_display]), whatever upload it answers
    and whatever was selected or uploaded since; it is [null] while no
    response has arrived. *)
Theorem run_last_display es w :
  run es init_world = Some w -> prediction (comp (page w)) = last_display None es.
Proof.
  intros Hr. unfold last_display.
  apply (run_fold (fun w => prediction (comp (page w))) _ es init_world w);
    [apply dispatch_prediction | constructor | done].
Qed.

(** C19: the diagnostic channel of section 7: after any run from the
    initial page, the console holds exactly one entry per failed
    response, in the order the responses arrived, each the error of that
    response under [console_label]; successes, selections and clicks log
    nothing. *)
Theorem run_console_log es w :
  run es init_world = Some w -> console (page w) = omap failure_entry es.
Proof.
  intros Hr. rewrite <- (app_nil_l (omap _ _)), <- fold_left_app_omap.
  apply (run_fold (fun w => console (page w)) _ es init_world w);
    [apply dispatch_console | constructor | done].
Qed.

(** C12: selecting several files then clicking upload sends the
    prediction request for the first file only ([files[0]]). *)
Theorem select_then_upload_first w f fs :
  exists w', run [EvFileChange (mkChangeEvent (f :: fs)); EvUploadClick] w = Some w' /\
    selectedFile (comp (page w')) = JsVal f /\
    sent w' = sent w ++ [(fresh w, prediction_request f)].
Proof.
  eexists; split; [reflexivity|]. split; [done|].
  simpl. by service_simpl.
Qed.

(** [n] upload clicks with [f] selected: one more subscription and one
    more prediction request per click, numbered on. *)
Lemma run_clicks f n w :
  selectedFile (comp (page w)) = JsVal f ->
  exists w', run (repeat EvUploadClick n) w = Some w' /\
    page w' = page w /\ length (subs w') = length (subs w) + n /\
    sent w' = sent w ++ zip (seq (fresh w) n) (repeat (prediction_request f) n) /\
    fresh w' = fresh w + n.
Proof.
  revert w. induction n as [|n IH]; intros w Hf.
  - exists w. simpl. rewrite app_nil_r. split_and!; first [done | lia].
  - cbn [repeat run dispatch mbind option_bind]. unfold onUpload. rewrite Hf.
    destruct (IH (subscribe (predictDisease f) upload_observer w)) as (w' & Hr & Hp & Hl & Hs & Hfr);
      [done|].
    exists w'. split; [exact Hr|]. unfold subscribe in *; simpl in *.
    rewrite Hp, Hl, Hs, Hfr, length_app, <- app_assoc, predictDisease_request_eq.
    split_and!; simpl; [done | lia | done | lia].
Qed.

(** C21: the code puts no bound on the requests in flight (section 4.2
    of the specification leaves concurrent uploads undefined): after
    selecting a file, [n] clicks before any answer leave [n] requests
    pending, all the prediction POST of that file, numbered [0 .. n-1]. *)
Theorem uploads_unbounded f n :
  exists w, run (EvFileChange (mkChangeEvent [f]) :: repeat EvUploadClick n) init_world = Some w /\
    length (subs w) = n /\ sent w = zip (seq 0 n) (repeat (prediction_request f) n).
Proof.
  destruct (run_clicks f n (set_comp (onFileSelected (mkChangeEvent [f]) init) init_world))
    as (w & Hr & _ & Hl & Hs & _); [done|].
  exists w. split_and!; done.
Qed.
End ServiceFacts.

(** C13: a change event with no file (the picker closed without a
    choice) sets [selectedFile] to [undefined], dropping an earlier
    selection, so a following upload click sends nothing and leaves the
    displayed prediction as it was. *)
Theorem empty_selection_disables_upload `{PredictService} w :
  exists w', run [EvFileChange (mkChangeEvent []); EvUploadClick] w = Some w' /\
    selectedFile (comp (page w')) = JsUndefined /\
    prediction (comp (page w')) = prediction (comp (page w)) /\
    sent w' = sent w /\ subs w' = subs w.
Proof. eexists; split; [reflexivity|]. done. Qed.


(** ** Witnesses: the theorems at concrete worlds *)

Lemma one_upload_reachable : reachable (H := plantDiseaseService) (world_after one_upload).
Proof. apply (run_reachable one_upload). reflexivity. Qed.

Lemma one_upload_pending : 0 ∈ map sub_id (subs (world_after one_upload)).
Proof. simpl. constructor. Qed.

Lemma onUpload_sends_request_witness :
  selectedFile (comp (page (world_after [EvFileChange (mkChangeEvent [leaf_a])]))) = JsVal leaf_a /\
  sent (onUpload (H := plantDiseaseService) (world_after [EvFileChange (mkChangeEvent [leaf_a])]))
    = [(0, prediction_request leaf_a)].
Proof.
  split; [reflexivity|].
  destruct (onUpload_sends_request (world_after [EvFileChange (mkChangeEvent [leaf_a])]) leaf_a)
    as [-> _]; reflexivity.
Defined.

Lemma onUpload_no_file_witness :
  truthy (selectedFile (comp (page init_world))) = false /\
  onUpload (H := plantDiseaseService) init_world = init_world.
Proof. split; [reflexivity|]. apply onUpload_no_file. reflexivity. Defined.

Lemma deliver_success_witness :
  reachable (H := plantDiseaseService) (world_after one_upload) /\
  exists w', deliver 0 (Received 200 "Healthy") (world_after one_upload) = Some w' /\
             prediction (comp (page w')) = Some "Healthy".
Proof.
  split; [apply one_upload_reachable|].
  destruct (deliver_success (world_after one_upload) 0 200 "Healthy") as (w' & Hd & Hp & _);
    [apply one_upload_reachable | apply one_upload_pending | lia |].
  exists w'. rewrite Hp. split; reflexivity || exact Hd.
Defined.

Lemma deliver_failure_witness :
  reachable (H := plantDiseaseService) (world_after one_upload) /\
  exists w' e, deliver 0 (Received 500 "Internal Server Error") (world_after one_upload) = Some w' /\
               prediction (comp (page w')) = Some error_message /\
               console (page w') = [ConsoleError console_label e].
Proof.
  split; [apply one_upload_reachable|].
  destruct (deliver_failure (world_after one_upload) 0 (Received 500 "Internal Server Error"))
    as (w' & e & Hd & Hp & _);
    [apply one_upload_reachable | apply one_upload_pending | right; eexists _, _; split; [reflexivity | lia] |].
  exists w', e. rewrite Hp. split_and!; [exact Hd | reflexivity | reflexivity].
Defined.


Lemma reachable_sent_prediction_witness :
  reachable (H := plantDiseaseService) (world_after one_upload) /\
  (0, prediction_request leaf_a) ∈ sent (world_after one_upload) /\
  exists f, prediction_request leaf_a = prediction_request f.
Proof.
  split_and!; [apply one_upload_reachable | simpl; constructor |].
  apply (reachable_sent_prediction (world_after one_upload) 0); [apply one_upload_reachable | simpl; constructor].
Defined.

Lemma run_last_display_witness :
  run (H := plantDiseaseService) overlapping_uploads init_world = Some (world_after overlapping_uploads) /\
  prediction (comp (page (world_after overlapping_uploads))) = last_display None overlapping_uploads.
Proof. split; [reflexivity|]. apply run_last_display. reflexivity. Defined.


Lemma select_then_upload_first_witness :
  exists w', run (H := plantDiseaseService)
               [EvFileChange (mkChangeEvent [leaf_a; leaf_b]); EvUploadClick] init_world = Some w' /\
             sent w' = [(0, prediction_request leaf_a)].
Proof.
  destruct (select_then_upload_first init_world leaf_a [leaf_b]) as (w' & Hr & _ & Hs).
  exists w'. split; [exact Hr | exact Hs].
Defined.

Lemma empty_selection_disables_upload_witness :
  exists w', run (H := plantDiseaseService)
               [EvFileChange (mkChangeEvent []); EvUploadClick] (world_after one_upload) = Some w' /\
             sent w' = sent (world_after one_upload).
Proof.
  destruct (empty_selection_disables_upload (H := plantDiseaseService) (world_after one_upload))
    as (w' & Hr & _ & _ & Hs & _).
  exists w'. split; [exact Hr | exact Hs].
Defined.

Lemma run_request_bounds_witness :
  run (H := plantDiseaseService) overlapping_uploads init_world = Some (world_after overlapping_uploads) /\
  length (subs (world_after overlapping_uploads)) + count_events is_response overlapping_uploads =
    length (sent (world_after overlapping_uploads)).
Proof. split; [reflexivity|]. apply run_request_bounds. reflexivity. Defined.

(** Two uploads, the first answered by a server error, the second by a
    network failure. *)
Definition failed_uploads : list Event :=
  [EvFileChange (mkChangeEvent [leaf_a]); EvUploadClick;
   EvHttpResponse 0 (Received 500 "Internal Server Error");
   EvFileChange (mkChangeEvent [leaf_b]); EvUploadClick;
   EvHttpResponse 1 NetworkError].

Lemma run_console_log_witness :
  console (page (world_after failed_uploads)) =
    [ConsoleError console_label (mkHttpError 500 (Some "Internal Server Error"));
     ConsoleError console_label (mkHttpError 0 None)].
Proof.
  rewrite (run_console_log failed_uploads (world_after failed_uploads)); reflexivity.
Defined.

Lemma uploads_unbounded_witness :
  exists w, run (H := plantDiseaseService) (EvFileChange (mkChangeEvent [leaf_a]) :: repeat EvUploadClick 3) init_world = Some w /\
    length (subs w) = 3.
Proof.
  destruct (uploads_unbounded (H0 := angularHttpClient_spec) leaf_a 3) as (w & Hr & Hl & _).
  exists w. split; [exact Hr | exact Hl].
Defined.

End PredictDiseaseComponent.
