(* ===== verification/Routes.v ===== *)
(** * The route table ([src/app/app.routes.ts]) and route recognition

    [routes] is the repository's table.  Recognition is Angular's, which
    the repository only configures; it is modelled on a URL already
    parsed into its path segments:

    - a route whose [path] is [''] matches without consuming anything,
      except that [pathMatch: 'full'] requires the URL to be empty;
    - another route matches when its ['/']-separated parts match the
      first segments (a part starting with [':'] matches any segment),
      and with [pathMatch: 'full'] (the default is ['prefix']) only when
      it consumes them all;
    - routes are tried in order; a component route without children
      fails (and the next route is tried) when segments remain;
    - a redirect to an absolute target (['/...']) restarts recognition on
      the target's segments; a relative one continues on the target's
      segments followed by the remaining ones.

    The fuel of [recognize] is the number of rounds (one plus the number
    of redirects followed); running out yields [RedirectLimit]. *)

From stdpp Require Import base list strings.
From Stdlib Require Import Ascii.
From S2P Require Import Prelude.

Inductive PathMatch := Prefix | Full.

(** The components a route can render. *)
Inductive RoutedComponent := PredictDiseaseComponentC.

Record Route := mkRoute {
  path : string;
  component : option RoutedComponent;
  redirectTo : option string;
  pathMatch : PathMatch
}.

(** [export const routes: Routes = [...]] *)
Definition routes : list Route := [
  mkRoute "predict" (Some PredictDiseaseComponentC) None Prefix;
  mkRoute "" None (Some "/predict") Full
].

Inductive Recognition :=
| Activated (c : RoutedComponent) (url : list string)
| NoMatchError (url : list string)
| RedirectLimit.

#[export] Instance RoutedComponent_eq_dec : EqDecision RoutedComponent.
Proof. solve_decision. Defined.
#[export] Instance PathMatch_eq_dec : EqDecision PathMatch.
Proof. solve_decision. Defined.
#[export] Instance Route_eq_dec : EqDecision Route.
Proof. solve_decision. Defined.
#[export] Instance Recognition_eq_dec : EqDecision Recognition.
Proof. solve_decision. Defined.

(** JavaScript's [s.split(c)]: [""] splits into [[""]]. *)
Fixpoint split_on (c : ascii) (s : string) : list string :=
  match s with
  | EmptyString => [EmptyString]
  | String a rest =>
      if Ascii.eqb a c then EmptyString :: split_on c rest
      else match split_on c rest with
           | w :: ws => String a w :: ws
           | [] => [String a EmptyString]
           end
  end.

Definition slash : ascii := "/"%char.
Definition colon : ascii := ":"%char.

Definition is_parameter (part : string) : bool :=
  match part with
  | String a _ => Ascii.eqb a colon
  | EmptyString => false
  end.

Fixpoint parts_match (parts segs : list string) : bool :=
  match parts, segs with
  | [], _ => true
  | p :: ps, s :: ss => (is_parameter p || String.eqb p s) && parts_match ps ss
  | _ :: _, [] => false
  end.

(** [match(segmentGroup, route, segments)] and [defaultUrlMatcher] for a
    segment group without children: consumed and remaining segments. *)
Definition match_route (r : Route) (segs : list string) : option (list string * list string) :=
  if String.eqb (path r) "" then
    match pathMatch r, segs with
    | Full, _ :: _ => None
    | _, _ => Some ([], segs)
    end
  else
    let parts := split_on slash (path r) in
    if Nat.ltb (length segs) (length parts) then None
    else if (match pathMatch r with Full => true | Prefix => false end)
            && Nat.ltb (length parts) (length segs) then None
    else if parts_match parts segs then Some (take (length parts) segs, drop (length parts) segs)
    else None.

(** The first route that applies, with the consumed and remaining
    segments. *)
Fixpoint first_match (rs : list Route) (segs : list string) :
    option (Route * list string * list string) :=
  match rs with
  | [] => None
  | r :: rs' =>
      match match_route r segs with
      | Some (consumed, rest) =>
          match redirectTo r, rest with
          | Some _, _ | None, [] => Some (r, consumed, rest)
          | None, _ :: _ => first_match rs' segs
          end
      | None => first_match rs' segs
      end
  end.

Definition is_absolute (target : string) : bool :=
  match target with
  | String a _ => Ascii.eqb a slash
  | EmptyString => false
  end.

Definition target_segments (target : string) : list string :=
  List.filter (fun s => negb (String.eqb s "")) (split_on slash target).

Fixpoint recognize (fuel : nat) (rs : list Route) (url : list string) : Recognition :=
  match fuel with
  | 0 => RedirectLimit
  | S fuel' =>
      match first_match rs url with
      | None => NoMatchError url
      | Some (r, consumed, rest) =>
          match redirectTo r with
          | Some target =>
              if is_absolute target then recognize fuel' rs (target_segments target)
              else recognize fuel' rs (target_segments target ++ rest)
          | None =>
              match component r with
              | Some c => Activated c url
              | None => NoMatchError url
              end
          end
      end
  end.

(** ** Theorems *)

Lemma first_match_routes url :
  first_match routes url =
    match url with
    | [] => (fun r => (r, [], [])) <$> routes !! 1
    | [s] => if String.eqb "predict" s then (fun r => (r, [s], [])) <$> routes !! 0 else None
    | _ :: _ :: _ => None
    end.
Proof.
  destruct url as [|s [|s' url]]; [done| |];
    unfold first_match, routes, match_route; cbn -[String.eqb];
    destruct (String.eqb "predict" s); reflexivity.
Qed.

(** C9: the root URL and ['/predict'] both render
    [PredictDiseaseComponent], at the URL ['/predict'] (the root is
    redirected), for any fuel allowing one redirect. *)
Theorem root_and_predict_same_view fuel :
  2 <= fuel ->
  recognize fuel routes [] = Activated PredictDiseaseComponentC ["predict"] /\
  recognize fuel routes ["predict"] = Activated PredictDiseaseComponentC ["predict"].
Proof. intros Hf. destruct fuel as [|[|fuel]]; [lia|lia|done]. Qed.

Lemma recognize_other fuel url :
  url <> [] -> url <> ["predict"] -> recognize (S fuel) routes url = NoMatchError url.
Proof.
  intros H0 H1. cbn [recognize]. rewrite first_match_routes.
  destruct url as [|s [|s' url]]; [done| |done].
  destruct (String.eqb_spec "predict" s); [congruence|done].
Qed.

(** C10: every other URL is rejected with a no-match error: the table has
    no wildcard route, and ['predict'] does not accept trailing
    segments. *)
Theorem other_urls_rejected fuel url :
  1 <= fuel -> url <> [] -> url <> ["predict"] -> recognize fuel routes url = NoMatchError url.
Proof. intros Hf. destruct fuel as [|fuel]; [lia|]. apply recognize_other. Qed.

(** C11: two rounds of recognition decide every URL: with any larger
    fuel the result is the same, and it is never [RedirectLimit]. *)
Theorem recognize_fuel_2 fuel url :
  2 <= fuel -> recognize fuel routes url = recognize 2 routes url /\
               recognize 2 routes url <> RedirectLimit.
Proof.
  intros Hf. destruct fuel as [|[|fuel]]; [lia|lia|].
  destruct (decide (url = [])) as [->|H0]; [done|].
  destruct (decide (url = ["predict"])) as [->|H1]; [done|].
  rewrite !recognize_other; done.
Qed.

Lemma root_and_predict_same_view_witness :
  2 <= 3 /\ recognize 3 routes [] = Activated PredictDiseaseComponentC ["predict"].
Proof. split; [lia|]. apply (root_and_predict_same_view 3). lia. Defined.

Lemma other_urls_rejected_witness :
  recognize 2 routes ["predict"; "extra"] = NoMatchError ["predict"; "extra"].
Proof. apply (other_urls_rejected 2); [lia | discriminate | discriminate]. Defined.

Lemma recognize_fuel_2_witness :
  recognize 31 routes [] = recognize 2 routes [].
Proof. apply (recognize_fuel_2 31 []). lia. Defined.
