(* ===== verification/Url.v ===== *)
(** * The address bar as the router reads it

    Angular's [DefaultUrlSerializer] turns the address bar into path
    segments.  On a primary path with no query, fragment, matrix
    parameters or auxiliary outlets, which is all the route table uses,
    [parse_url] drops one leading ['/'] and splits the rest at each
    ['/']; an empty rest is the empty path.  [App] feeds its result to
    the router. *)

From stdpp Require Import base list strings.
From Stdlib Require Import Ascii.
From Stdlib Require String.
From S2P Require Import Prelude Routes.

Definition path_segments (s : string) : list string :=
  match s with
  | EmptyString => []
  | _ => split_on slash s
  end.

Definition parse_url (s : string) : list string :=
  match s with
  | String a rest => if Ascii.eqb a slash then path_segments rest else path_segments s
  | EmptyString => []
  end.
