(* ===== verification/Metadata.v ===== *)
(** * Decorator metadata

    The two classes of the repository carry Angular decorators:
    [@Component({selector, imports, templateUrl, styleUrl})] on
    [PredictDiseaseComponent] and [@Injectable({providedIn: 'root'})] on
    [PlantDiseaseService].  They are Records here, with the literal values
    of the code.  They configure Angular (the element name, the template
    [View] models, the root injector that provides the one
    [plantDiseaseService]) and carry no behaviour of their own, so no
    theorem is stated about them. *)

From stdpp Require Import base list strings.
From S2P Require Import Prelude.

Record ComponentMeta := mkComponentMeta {
  selector : string;
  imports : list string;
  templateUrl : string;
  styleUrl : string
}.

Inductive ProvidedIn := InRoot | InPlatform | InAny | NotProvided.

Record InjectableMeta := mkInjectableMeta { providedIn : ProvidedIn }.

(** [@Component({ selector: 'app-predict-disease', imports: [CommonModule],
      templateUrl: './predict-disease.component.html',
      styleUrl: './predict-disease.component.css' })] *)
Definition predict_disease_meta : ComponentMeta := {|
  selector := "app-predict-disease";
  imports := ["CommonModule"];
  templateUrl := "./predict-disease.component.html";
  styleUrl := "./predict-disease.component.css"
|}.

(** [@Injectable({ providedIn: 'root' })] *)
Definition plant_disease_injectable : InjectableMeta := {| providedIn := InRoot |}.
