(* ===== verification/Refinement.v ===== *)
(** * The specification's state machine and the refinement of it

    Section 4.2 of the specification describes the component as a state
    machine over what the user sees: a file is selected or not, uploads
    are outstanding (an implicit state), and the page shows nothing, a
    prediction text or the fixed error text.  [SpecMachine] states it as a
    labelled transition system: [AState], the labels [ALabel] of the
    specification's transitions (the user selects a file or, which the
    specification does not mention, none; clicks upload; the wrapper
    resolves with a text or rejects) and [astep], one rule per transition
    of the specification, the silent no-op of an upload without a file
    included.  [event_label] reads the label off a browser event, [abs]
    maps a world of the event loop to an [AState].

    The theorem: every run of the component from its initial page is a
    trace of the machine, under the labels of its events, ending in the
    abstraction of the world reached.  The machine is deterministic for
    a given label, so the run fixes the abstract state: the selection,
    the number of outstanding uploads, and the text shown. *)

From stdpp Require Import base list strings relations.
From S2P Require Import Prelude Http Service Component.

Import PredictDiseaseComponent.

Module SpecMachine.

Record AState := mkAState {
  a_file : option File;
  a_pending : nat;
  a_shown : option string
}.

Definition a_init : AState := mkAState None 0 None.

Inductive ALabel :=
| LSelect (f : File)
| LClear
| LUpload
| LSucceed (t : string)
| LFail.

Inductive astep : ALabel -> AState -> AState -> Prop :=
| a_select f s :
    astep (LSelect f) s (mkAState (Some f) (a_pending s) (a_shown s))
| a_clear s :
    astep LClear s (mkAState None (a_pending s) (a_shown s))
| a_upload f s :
    a_file s = Some f -> astep LUpload s (mkAState (a_file s) (S (a_pending s)) (a_shown s))
| a_upload_none s :
    a_file s = None -> astep LUpload s s
| a_succeed t s :
    0 < a_pending s -> astep (LSucceed t) s (mkAState (a_file s) (a_pending s - 1) (Some t))
| a_fail s :
    0 < a_pending s -> astep LFail s (mkAState (a_file s) (a_pending s - 1) (Some error_message)).

(** The machine's runs under a sequence of labels. *)
Inductive atrace : list ALabel -> AState -> AState -> Prop :=
| atrace_nil s : atrace [] s s
| atrace_cons l ls s s' s'' : astep l s s' -> atrace ls s' s'' -> atrace (l :: ls) s s''.

(** The label of a browser event as the specification reads it: the file
    the user selected is the first the picker reports; a response is a
    success with its text exactly when the text decoding succeeds. *)
Definition event_label (e : Event) : ALabel :=
  match e with
  | EvFileChange ev => match target_files ev with f :: _ => LSelect f | [] => LClear end
  | EvUploadClick => LUpload
  | EvHttpResponse _ r => match text_result r with inl t => LSucceed t | inr _ => LFail end
  end.

(** The abstraction of a world: the selection as an option, the number
    of pending subscriptions, the displayed prediction. *)
Definition abs (w : World) : AState :=
  mkAState (nullable_to_option (selectedFile (comp (page w))))
           (length (subs w))
           (prediction (comp (page w))).

(** ** Refinement, event by event *)

Lemma astep_file_change ev w :
  astep (event_label (EvFileChange ev)) (abs w) (abs (set_comp (onFileSelected ev (comp (page w))) w)).
Proof.
  unfold abs, onFileSelected, js_index; simpl.
  destruct (target_files ev) as [|f fs]; simpl; [apply (a_clear (abs w)) | apply (a_select f (abs w))].
Qed.

Section WithService.
Context `{HttpClientSpec}.

Lemma astep_upload w : astep LUpload (abs w) (abs (onUpload w)).
Proof.
  unfold onUpload. destruct (selectedFile (comp (page w))) as [| |f] eqn:Hf;
    [apply a_upload_none; unfold abs; simpl; by rewrite Hf ..|].
  replace (abs (subscribe _ _ w))
    with (mkAState (a_file (abs w)) (S (a_pending (abs w))) (a_shown (abs w))).
  - apply (a_upload f). unfold abs; simpl. by rewrite Hf.
  - unfold abs, subscribe; simpl. by rewrite length_app, Nat.add_1_r.
Qed.

Lemma astep_deliver id r w w' :
  reachable w -> deliver id r w = Some w' ->
  astep (event_label (EvHttpResponse id r)) (abs w) (abs w').
Proof.
  intros Hw Hd.
  pose proof (deliver_Some_pending id r w w' Hd) as Hin.
  pose proof (deliver_page id r w w' (reachable_upload_subs w Hw) Hd) as Hp.
  apply deliver_Some in Hd as (s & _ & Ew).
  assert (0 < length (subs w)) as Hpos by (destruct (subs w); [by apply not_elem_of_nil in Hin | simpl; lia]).
  unfold abs at 2. rewrite Hp, Ew. simpl.
  rewrite remove_key_length_NoDup by (done || by apply reachable_NoDup).
  destruct (text_result r) as [body|e]; simpl; [apply (a_succeed body (abs w)) | apply (a_fail (abs w))];
    done.
Qed.

Lemma dispatch_refines e w w' :
  reachable w -> dispatch e w = Some w' -> astep (event_label e) (abs w) (abs w').
Proof.
  intros Hw. destruct e as [ev| |id r]; simpl.
  - intros [= <-]. apply astep_file_change.
  - intros [= <-]. apply astep_upload.
  - by apply astep_deliver.
Qed.

Lemma run_refines_from es w w' :
  reachable w -> run es w = Some w' -> atrace (map event_label es) (abs w) (abs w').
Proof.
  revert w. induction es as [|e es IH]; simpl; intros w Hw Hr; [simplify_eq; constructor|].
  destruct (dispatch e w) as [w1|] eqn:Hd; simpl in Hr; [|discriminate].
  econstructor; [by apply dispatch_refines|].
  apply IH; [|done]. eapply rtc_r; [exact Hw | by eapply dispatch_step].
Qed.

(** C7: refinement of the specification's state machine: every sequence
    of browser events the component runs from its initial page is a
    trace of the machine of section 4.2 under the labels of the events,
    from its initial state to the abstraction of the world reached.  So
    a selection stores the first file reported, an upload with a file
    adds exactly one outstanding call and one without is a no-op, a
    success shows the returned text, a failure the fixed text, and
    nothing else moves what the user sees. *)
Theorem run_refines es w :
  run es init_world = Some w -> atrace (map event_label es) a_init (abs w).
Proof. apply (run_refines_from es init_world w), rtc_refl. Qed.
End WithService.

Lemma run_refines_witness :
  atrace (map event_label overlapping_uploads) a_init (abs (world_after overlapping_uploads)).
Proof. apply (run_refines (H0 := angularHttpClient_spec)). reflexivity. Defined.

End SpecMachine.
