(* ===== verification/App.v ===== *)
(** * The application: router outlet, component instance, browser events

    The router and the component interact through the primary outlet.
    [AppState] is what the browser tab holds: the URL the router last
    activated, the route configuration it activated, and the component
    in the outlet with its instance (its [World]).  [app_dispatch] runs
    one event of the tab:

    - [Navigate s]: the router parses [s] ([Url.parse_url]), recognises it
      against [routes] (two rounds suffice, [Routes.recognize_fuel_2]);
      on a recognition error it keeps its state (Angular emits
      [NavigationError] and restores the URL); on success Angular's
      default reuse strategy keeps the instance when the activated route
      configuration is the active one ([activated_config]) and otherwise
      destroys it and creates a fresh one, whose world is [init_world].
    - [Ui e]: a browser event on the page ([Component.dispatch] with the
      application's service); there is no page to act on before the
      first activation.

    The theorems: with this route table every accepted URL activates the
    configuration of ['predict'], so once created the instance is never
    replaced by navigation, the callbacks of pending uploads always reach
    the displayed instance, and the shown world is exactly the
    component's [run] on the tab's browser events ([ui_events]); and the
    end-to-end scenarios of the specification, from a fresh tab. *)

From stdpp Require Import base list strings relations.
From Stdlib Require Import ZArith.
From S2P Require Import Prelude Http Service Component Routes Url.

Import PredictDiseaseComponent.

Module App.

Record AppState := mkApp {
  location : list string;
  active_config : option Route;
  outlet : option (RoutedComponent * World)
}.

Definition app_init : AppState := mkApp [] None None.

Inductive AppEvent :=
| Navigate (url : string)
| Ui (e : Event).

(** The route configuration the router activates at [url]: the route
    its final round of recognition matched.  Angular's default reuse
    strategy keeps the instance exactly when this configuration is the
    one already active ([future.routeConfig === curr.routeConfig]); the
    routes of a table are distinct objects, and in [routes] they differ
    as records, so equality of records decides it here. *)
Definition activated_config (url : list string) : option Route :=
  (fun m => m.1.1) <$> first_match routes url.

Definition app_navigate (url : list string) (a : AppState) : AppState :=
  match recognize 2 routes url with
  | Activated c url' =>
      let r := activated_config url' in
      match outlet a with
      | Some (_, w) =>
          if decide (r = active_config a) then mkApp url' r (Some (c, w))
          else mkApp url' r (Some (c, init_world))
      | None => mkApp url' r (Some (c, init_world))
      end
  | NoMatchError _ | RedirectLimit => a
  end.

Definition app_dispatch (ev : AppEvent) (a : AppState) : option AppState :=
  match ev with
  | Navigate s => Some (app_navigate (parse_url s) a)
  | Ui e =>
      match outlet a with
      | Some (c, w) =>
          w' ← dispatch (H := plantDiseaseService) e w;
          Some (mkApp (location a) (active_config a) (Some (c, w')))
      | None => None
      end
  end.

Fixpoint app_run (evs : list AppEvent) (a : AppState) : option AppState :=
  match evs with
  | [] => Some a
  | ev :: evs' => app_dispatch ev a ≫= app_run evs'
  end.

Definition app_step (a a' : AppState) : Prop := exists ev, app_dispatch ev a = Some a'.

Definition app_reachable (a : AppState) : Prop := rtc app_step app_init a.

(** The page of the outlet, if a component is shown. *)
Definition shown_world (a : AppState) : option World := snd <$> outlet a.

(** Open the URL in a fresh tab, pick one file, click upload, and let the
    server answer the request with [r]; the world of the page shown. *)
Definition upload_session (url : string) (f : File) (r : HttpResult) : option World :=
  app_run [Navigate url; Ui (EvFileChange (mkChangeEvent [f])); Ui EvUploadClick;
           Ui (EvHttpResponse 0 r)] app_init ≫= shown_world.

Definition leaf_jpg : File := mkFile "leaf.jpg" "image/jpeg" [Byte.xff; Byte.xd8; Byte.xff; Byte.xe0].

(** ** Lifecycle *)

(** The configuration of the ['predict'] route, the first of the table. *)
Definition predict_config : option Route := routes !! 0.

Lemma recognize_activated url c url' :
  recognize 2 routes url = Activated c url' -> url' = ["predict"].
Proof.
  intros Hr. destruct (decide (url = [])) as [->|H0]; [simpl in Hr; by simplify_eq|].
  destruct (decide (url = ["predict"])) as [->|H1]; [simpl in Hr; by simplify_eq|].
  rewrite recognize_other in Hr by done. discriminate.
Qed.

(** A navigation is rejected, or activates the ['predict'] route; the
    instance is kept when that route was already active. *)
Lemma app_navigate_cases url a :
  app_navigate url a = a \/
  (location (app_navigate url a) = ["predict"] /\
   active_config (app_navigate url a) = predict_config /\
   outlet (app_navigate url a) =
     Some (PredictDiseaseComponentC,
           match outlet a with
           | Some (_, w) => if decide (predict_config = active_config a) then w else init_world
           | None => init_world
           end)).
Proof.
  unfold app_navigate. destruct (recognize 2 routes url) as [c url'| |] eqn:Hr; [|by left|by left].
  right. apply recognize_activated in Hr as ->. destruct c.
  destruct (outlet a) as [[[] w]|]; [|done]. by destruct (decide _).
Qed.

(** The invariant of the tab: a shown page is a reachable world of the
    component, under the ['predict'] route at ['/predict']; before the
    first activation nothing is shown and no URL is active. *)
Definition app_inv (a : AppState) : Prop :=
  match outlet a with
  | Some (_, w) =>
      reachable (H := plantDiseaseService) w /\ location a = ["predict"] /\
      active_config a = predict_config
  | None => location a = []
  end.

(** Under the invariant a navigation keeps the shown world, or shows a
    fresh one when nothing was shown. *)
Lemma app_navigate_kept url a :
  app_inv a ->
  app_navigate url a = a \/
  (location (app_navigate url a) = ["predict"] /\
   active_config (app_navigate url a) = predict_config /\
   outlet (app_navigate url a) =
     Some (PredictDiseaseComponentC, match outlet a with Some (_, w) => w | None => init_world end)).
Proof.
  intros Hinv. destruct (app_navigate_cases url a) as [E | (Hl & Hc & Ho)]; [by left|].
  right. split_and!; [done | done |]. rewrite Ho. unfold app_inv in Hinv.
  destruct (outlet a) as [[c w]|]; [|done]. destruct Hinv as (_ & _ & ->).
  by rewrite decide_True.
Qed.

Lemma app_step_inv a a' : app_step a a' -> app_inv a -> app_inv a'.
Proof.
  intros [[s|e] Hd] Hinv; simpl in Hd.
  - injection Hd as <-.
    destruct (app_navigate_kept (parse_url s) a Hinv) as [-> | (Hl & Hc & Ho)]; [done|].
    unfold app_inv in *. rewrite Ho, Hl, Hc. split_and!; [|done|done].
    destruct (outlet a) as [[c w]|]; [apply Hinv | apply rtc_refl].
  - unfold app_inv in *. destruct (outlet a) as [[c w]|]; [|discriminate].
    destruct (dispatch e w) as [w'|] eqn:He; simpl in Hd; [|discriminate].
    injection Hd as <-. simpl. destruct Hinv as (Hw & Hl & Hc). split_and!; [|done|done].
    eapply rtc_r; [exact Hw | by eapply dispatch_step].
Qed.

Lemma app_reachable_app_inv a : app_reachable a -> app_inv a.
Proof.
  unfold app_reachable. revert a. apply rtc_ind_r.
  - done.
  - intros a a' _ Hs Hinv. by eapply app_step_inv.
Qed.



(** ** The tab as the component's event loop *)

(** The browser events among the tab's events, in order. *)
Definition ui_events (evs : list AppEvent) : list Event :=
  omap (fun ev => match ev with Ui e => Some e | Navigate _ => None end) evs.

Lemma ui_events_cons_nav s evs : ui_events (Navigate s :: evs) = ui_events evs.
Proof. done. Qed.

Lemma ui_events_cons_ui e evs : ui_events (Ui e :: evs) = e :: ui_events evs.
Proof. done. Qed.

(** Once a component is shown, the tab runs its browser events through
    the component's [run] and keeps the component. *)
Lemma app_run_shown_world evs a a' c w :
  app_inv a -> outlet a = Some (c, w) -> app_run evs a = Some a' ->
  exists w', outlet a' = Some (c, w') /\ run (ui_events evs) w = Some w'.
Proof.
  revert a w. induction evs as [|[s|e] evs IH]; intros a w Hinv Ho Hr; simpl in Hr.
  - simplify_eq. eauto.
  - rewrite ui_events_cons_nav. apply (IH (app_navigate (parse_url s) a) w); [| |done].
    + apply (app_step_inv a); [by exists (Navigate s) | done].
    + destruct (app_navigate_kept (parse_url s) a Hinv) as [-> | (_ & _ & ->)]; [done|].
      rewrite Ho. by destruct c.
  - rewrite ui_events_cons_ui. cbn [run].
    destruct (dispatch e w) as [w1|] eqn:He; simpl in *; rewrite Ho, He in Hr; simpl in Hr;
      [|discriminate].
    apply (IH (mkApp (location a) (active_config a) (Some (c, w1))) w1); [|done|done].
    apply (app_step_inv a); [exists (Ui e); simpl; by rewrite Ho, He | done].
Qed.

(** C20: navigation is transparent to the component: whenever a tab
    opened fresh shows the component, the component's world is exactly
    the one its own event loop reaches from [init_world] on the browser
    events of the tab, in order, whatever navigations came between
    them.  This rests on the route table: every URL the router accepts
    activates the one configuration ['predict'], so the reuse strategy
    never replaces the instance (a table whose [''] rendered the
    component under a route of its own would reset it on each switch). *)
Theorem tab_is_component_run evs a c w :
  app_run evs app_init = Some a -> outlet a = Some (c, w) ->
  run (ui_events evs) init_world = Some w.
Proof.
  generalize app_init (eq_refl : outlet app_init = None) (eq_refl : location app_init = []).
  induction evs as [|[s|e] evs IH]; intros a0 H0 Hl0 Hr Ho; simpl in Hr;
    [simplify_eq; congruence | rewrite ui_events_cons_nav | by rewrite H0 in Hr].
  assert (app_inv a0) as Hinv by (unfold app_inv; by rewrite H0).
  destruct (app_navigate_kept (parse_url s) a0 Hinv) as [E | (Hl & Hc & Ho1)];
    [rewrite E in Hr; eauto|].
  rewrite H0 in Ho1.
  destruct (app_run_shown_world evs (app_navigate (parse_url s) a0) a PredictDiseaseComponentC init_world)
    as (w' & Ho' & Hrun);
    [apply (app_step_inv a0); [by exists (Navigate s) | done] | done | done |].
  congruence.
Qed.

(** ** Scenarios *)

(** C14: in a fresh tab opened at the root URL, selecting a file,
    uploading it and receiving a 2xx response with body [body] sends
    exactly the prediction request for that file and shows [body]
    verbatim, with nothing logged. *)
Theorem session_success f status body :
  (200 <= status < 300)%Z ->
  exists w, upload_session "/" f (Received status body) = Some w /\
    prediction (comp (page w)) = Some body /\
    sent w = [(0, prediction_request f)] /\ console (page w) = [] /\ subs w = [].
Proof.
  intros Hs. unfold upload_session. simpl. unfold notify; simpl.
  rewrite (proj2 (is_2xx_spec status) Hs). by eexists.
Qed.

(** C15: in a fresh tab opened at the root URL, when the server answers
    the upload with a status outside 2xx, the page shows the fixed error
    text and the console holds exactly the error response, whatever the
    body. *)
Theorem session_server_error f status body :
  ~ (200 <= status < 300)%Z ->
  exists w, upload_session "/" f (Received status body) = Some w /\
    prediction (comp (page w)) = Some error_message /\
    console (page w) = [ConsoleError console_label (mkHttpError status (Some body))] /\
    sent w = [(0, prediction_request f)].
Proof.
  intros Hs. unfold upload_session. simpl. unfold notify; simpl.
  destruct (is_2xx status) eqn:E; [by apply is_2xx_spec in E|]. by eexists.
Qed.

(** ** Witnesses *)

Definition tab_after_upload : list AppEvent :=
  [Navigate "/"; Ui (EvFileChange (mkChangeEvent [leaf_jpg])); Ui EvUploadClick].

Lemma tab_after_upload_reachable :
  app_reachable (default app_init (app_run tab_after_upload app_init)).
Proof.
  unfold app_reachable.
  eapply rtc_l; [exists (Navigate "/"); reflexivity|].
  eapply rtc_l; [exists (Ui (EvFileChange (mkChangeEvent [leaf_jpg]))); reflexivity|].
  eapply rtc_l; [exists (Ui EvUploadClick); reflexivity|].
  apply rtc_refl.
Qed.




Lemma tab_is_component_run_witness :
  run (H := plantDiseaseService) (ui_events tab_after_upload) init_world =
    Some (default init_world (shown_world (default app_init (app_run tab_after_upload app_init)))).
Proof.
  apply (tab_is_component_run tab_after_upload (default app_init (app_run tab_after_upload app_init))
           PredictDiseaseComponentC); reflexivity.
Defined.

Lemma session_success_witness :
  exists w, upload_session "/" leaf_jpg (Received 200 "Healthy") = Some w /\
    prediction (comp (page w)) = Some "Healthy".
Proof.
  destruct (session_success leaf_jpg 200 "Healthy") as (w & Hs & Hp & _); [lia|].
  exists w. split; [exact Hs | exact Hp].
Defined.

Lemma session_server_error_witness :
  exists w, upload_session "/" leaf_jpg (Received 500 "Internal Server Error") = Some w /\
    prediction (comp (page w)) = Some error_message.
Proof.
  destruct (session_server_error leaf_jpg 500 "Internal Server Error") as (w & Hs & Hp & _); [lia|].
  exists w. split; [exact Hs | exact Hp].
Defined.

End App.
