(* ===== verification/View.v ===== *)
(** * The template of [PredictDiseaseComponent] and the page the user sees

    The template [predict-disease.component.html] is not among the
    sources; it is modelled from section 6 of the specification: the
    page has a file picker and an upload button, and its output is the
    component's [prediction], the raw text of a response or the fixed
    error text, nothing before any answer.  The picker's [(change)]
    binding calls [onFileSelected($event)], the button's [(click)]
    binding calls [onUpload()] ([template_event]).

    [app_view] is what the tab displays: the template of the component in
    the router outlet, nothing before the first activation.

    The theorem: whatever the user does and whatever the network answers,
    the text on the page is either the body of a successful response the
    server sent, verbatim, or the fixed error text: the page never shows
    a text of its own making, and no response body of a failed request. *)

From stdpp Require Import base list strings relations.
From Stdlib Require Import ZArith.
From S2P Require Import Prelude Http Service Component Routes Url App.

Import PredictDiseaseComponent App.

Module Template.

(** The nodes the template renders. *)
Inductive ViewNode :=
| FileInput
| UploadButton
| PredictionOutput (text : string).

#[export] Instance ViewNode_eq_dec : EqDecision ViewNode.
Proof. solve_decision. Defined.

Definition render (c : Component) : list ViewNode :=
  [FileInput; UploadButton] ++
  match prediction c with Some t => [PredictionOutput t] | None => [] end.

(** What the user does on the page. *)
Inductive UserAction :=
| PickFiles (files : list File)
| ClickUpload.

(** The template's event bindings. *)
Definition template_event (a : UserAction) : Event :=
  match a with
  | PickFiles files => EvFileChange (mkChangeEvent files)
  | ClickUpload => EvUploadClick
  end.

(** The tab's display. *)
Definition app_view (a : AppState) : list ViewNode :=
  match outlet a with
  | Some (_, w) => render (comp (page w))
  | None => []
  end.

(** The prediction of the component shown, if any. *)
Definition shown_prediction (a : AppState) : option string :=
  outlet a ≫= fun cw => prediction (comp (page (snd cw))).

(** [t] is the body of a successful response among the events [evs]. *)
Definition server_text (evs : list AppEvent) (t : string) : Prop :=
  exists id status, Ui (EvHttpResponse id (Received status t)) ∈ evs /\ (200 <= status < 300)%Z.

(** ** Lemmas *)

Lemma render_output c t : PredictionOutput t ∈ render c <-> prediction c = Some t.
Proof.
  unfold render. destruct (prediction c) as [t'|]; simpl; rewrite ?elem_of_cons, ?elem_of_nil;
    split; intros; repeat (destruct_or?; simplify_eq); auto.
Qed.

Lemma app_view_output a t : PredictionOutput t ∈ app_view a <-> shown_prediction a = Some t.
Proof.
  unfold app_view, shown_prediction. destruct (outlet a) as [[c w]|]; simpl; [apply render_output|].
  rewrite elem_of_nil. done.
Qed.

(** The text of an answer is a successful body or the error text. *)
Lemma display_cases r : display r = error_message \/
  exists status, r = Received status (display r) /\ (200 <= status < 300)%Z.
Proof.
  unfold display. destruct (text_result r) as [body|e] eqn:E; [right|by left].
  by apply text_result_inl in E.
Qed.

(** One event of the tab leaves the text shown alone or shows the
    answer of a response event. *)
Lemma app_dispatch_shown ev a a' :
  app_inv a -> app_dispatch ev a = Some a' ->
  shown_prediction a' = shown_prediction a \/
  exists id r, ev = Ui (EvHttpResponse id r) /\ shown_prediction a' = Some (display r).
Proof.
  intros Hinv Hd. destruct ev as [s|e]; simpl in Hd.
  - injection Hd as <-. left. unfold shown_prediction.
    destruct (app_navigate_kept (parse_url s) a Hinv) as [-> | (_ & _ & ->)]; [done|].
    by destruct (outlet a) as [[c w]|].
  - unfold app_inv in Hinv. destruct (outlet a) as [[c w]|] eqn:Ho; [|discriminate].
    destruct (dispatch e w) as [w'|] eqn:He; simpl in Hd; [|discriminate].
    injection Hd as <-. unfold shown_prediction. rewrite Ho. simpl.
    rewrite (dispatch_prediction e w w'); [|by apply reachable_upload_subs, Hinv | done].
    destruct e as [| |id r]; [by left | by left | right; eauto].
Qed.

Lemma app_run_shown evs a a' t :
  app_reachable a -> app_run evs a = Some a' -> shown_prediction a' = Some t ->
  shown_prediction a = Some t \/ t = error_message \/ server_text evs t.
Proof.
  revert a. induction evs as [|ev evs IH]; simpl; intros a Ha Hr Ht; [simplify_eq; by left|].
  destruct (app_dispatch ev a) as [a1|] eqn:Hd; simpl in Hr; [|discriminate].
  assert (app_reachable a1) as Ha1 by (eapply rtc_r; [exact Ha | by exists ev]).
  destruct (IH a1 Ha1 Hr Ht) as [Ht1 | [He | (id & st & Hin & Hs)]];
    [| by right; left | by right; right; exists id, st; split; [apply list_elem_of_further|]].
  destruct (app_dispatch_shown ev a a1 (app_reachable_app_inv a Ha) Hd) as [<- | (id & r & -> & Hr1)];
    [by left|].
  rewrite Ht1 in Hr1. injection Hr1 as ->. right.
  destruct (display_cases r) as [He | (st & Er & Hs)]; [by left|].
  right. exists id, st. rewrite <- Er. split; [by left | done].
Qed.

(** ** Theorems *)

(** C18: the page only shows what the server said or the fixed error
    text: after any sequence of navigations, user actions and network
    answers from a fresh tab, a prediction text on the page is
    [error_message] or the body, verbatim, of a 2xx response among the
    events. *)
Theorem shown_text_from_server evs a t :
  app_run evs app_init = Some a -> PredictionOutput t ∈ app_view a ->
  t = error_message \/ server_text evs t.
Proof.
  intros Hr Ht%app_view_output.
  destruct (app_run_shown evs app_init a t) as [H0 | H]; [apply rtc_refl | done | done | discriminate | done].
Qed.

(** ** Witnesses *)

(** A session driven through the template's bindings. *)
Definition template_session : list AppEvent :=
  [Navigate "/"; Ui (template_event (PickFiles [leaf_jpg])); Ui (template_event ClickUpload);
   Ui (EvHttpResponse 0 (Received 200 "Healthy"))].

Lemma shown_text_from_server_witness :
  PredictionOutput "Healthy" ∈ app_view (default app_init (app_run template_session app_init)) /\
  ("Healthy" = error_message \/ server_text template_session "Healthy").
Proof.
  split; [apply app_view_output; reflexivity|].
  apply (shown_text_from_server template_session (default app_init (app_run template_session app_init)));
    [reflexivity | apply app_view_output; reflexivity].
Defined.

End Template.
